(** * apache_beam.testing.test_stream_service

    A shallow embedding of [TestStreamServiceController], the gRPC servicer
    that streams recorded [TestStreamPayload.Event]s back to a caller, and the
    properties of its constructor, of [start]/[stop] and of the [Events]
    generator.

    The controller talks to two collaborators that live outside the module:
    the [grpc] server it owns and the cache reader handed to the constructor.
    Both are kept abstract (records of operations over an external [World]);
    the controller's own code is written out in a small state monad in which
    a call either returns, raises, or never comes back. *)

From Stdlib Require Import String Ascii List ZArith Bool Lia DecimalString.
From Stdlib Require DecimalPos DecimalZ.
Import ListNotations.
Open Scope string_scope.

Set Implicit Arguments.

(** ** Python values *)

(** A Python exception: its class name and its message. *)
Record Exn : Type := mkExn { exn_class : string; exn_msg : string }.

(** What a call can do: return a value, raise, or block for ever. *)
Inductive outcome (A : Type) : Type :=
| Ret (a : A)
| Raise (e : Exn)
| Hang.
Arguments Ret {A} a.
Arguments Raise {A} e.
Arguments Hang {A}.

(** [str(n)] for a Python [int]; this is what ['{}'.format(n)] produces. *)
Definition str_int (n : Z) : string := NilZero.string_of_int (Z.to_int n).

(** Truthiness of an optional string argument ([None] and [''] are falsy). *)
Definition truthy (x : option string) : bool :=
  match x with
  | None => false
  | Some s => negb (s =? "")
  end.

(** A tag is [None] or a [str]; a read key is the tuple [(label, tag)]. *)
Definition Tag : Type := option string.
Definition ReadKey : Type := (string * Tag)%type.

(** The request message: only the repeated string field [output_ids] is read. *)
Record EventsRequest : Type := { output_ids : list string }.

(** Object identities. *)
Definition ObjRef : Type := nat.
Definition ServerRef : Type := nat.

(** The external calls the controller makes, in the order it makes them. *)
Inductive Call : Type :=
| call_server (max_workers : Z)
| call_add_insecure_port (srv : ServerRef) (address : string)
| call_add_servicer (servicer : ObjRef) (srv : ServerRef)
| call_start (srv : ServerRef)
| call_stop (srv : ServerRef) (grace : Z)
| call_wait_for_termination (srv : ServerRef) (timeout : option Z)
| call_read_multiple (keys : list ReadKey)
| call_iter
| call_next.

(** The [read_multiple] calls of a trace, with their arguments. *)
Fixpoint read_multiple_calls (t : list Call) : list (list ReadKey) :=
  match t with
  | [] => []
  | call_read_multiple keys :: t' => keys :: read_multiple_calls t'
  | _ :: t' => read_multiple_calls t'
  end.

(** The addresses handed to [add_insecure_port] in a trace. *)
Fixpoint bind_calls (t : list Call) : list string :=
  match t with
  | [] => []
  | call_add_insecure_port _ a :: t' => a :: bind_calls t'
  | _ :: t' => bind_calls t'
  end.

(** Whether a trace contains a [start] of the server. *)
Fixpoint started (t : list Call) : bool :=
  match t with
  | [] => false
  | call_start _ :: _ => true
  | _ :: t' => started t'
  end.

(** How many times [next] was called on an iterator of the reader. *)
Fixpoint next_calls (t : list Call) : nat :=
  match t with
  | [] => O
  | call_next :: t' => S (next_calls t')
  | _ :: t' => next_calls t'
  end.

(** The calls that go to the reader and to what it returns; the others go
    to the server. *)
Definition is_reader_call (c : Call) : bool :=
  match c with
  | call_read_multiple _ | call_iter | call_next => true
  | _ => false
  end.

(** The address the constructor hands to [add_insecure_port]. *)
Definition bind_address (endpoint' : option string) : string :=
  match endpoint' with
  | Some address => if truthy endpoint' then address else "localhost:0"
  | None => "localhost:0"
  end.

(** How a consumer sees a stream end. *)
Inductive Termination : Type :=
| Exhausted            (* StopIteration: normal completion *)
| Failed (e : Exn)     (* an exception came out of [next] *)
| Blocked              (* [next] never returned *)
| Pending.             (* the consumer stopped pulling *)

(** A run has come to its end: the stream was exhausted or it failed. *)
Definition ended (t : Termination) : Prop :=
  t = Exhausted \/ exists x, t = Failed x.

Section Service.

(** [Event] is the opaque record streamed back; [World] is the state of
    everything outside the controller (the network, the cache);
    [Iterable] is what [read_multiple] returns and [Iterator] what [iter]
    makes of it. *)
Context {Event World Iterable Iterator : Type}.

(** The reader passed to the constructor.  [__next__] returning
    [Ret None] stands for raising [StopIteration]. *)
Record Reader : Type := {
  read_multiple : list ReadKey -> World -> outcome Iterable * World;
  __iter__ : Iterable -> World -> outcome Iterator * World;
  __next__ : Iterator -> World -> outcome (option Event) * World;
}.

(** The [grpc] package and the generated registration helper, as far as
    the controller uses them. *)
Record Transport : Type := {
  server : Z -> World -> outcome ServerRef * World;
  add_insecure_port : ServerRef -> string -> World -> outcome Z * World;
  add_TestStreamServiceServicer_to_server :
    ObjRef -> ServerRef -> World -> outcome unit * World;
  server_start : ServerRef -> World -> outcome unit * World;
  server_stop : ServerRef -> Z -> World -> outcome unit * World;
  has_wait_for_termination : bool;
  wait_for_termination : ServerRef -> option Z -> World -> outcome unit * World;
}.

(** An instance of the class: each attribute is absent until assigned. *)
Record TestStreamServiceController : Type := {
  _server : option ServerRef;
  endpoint : option string;
  _reader : option Reader;
}.

Definition blank : TestStreamServiceController :=
  {| _server := None; endpoint := None; _reader := None |}.

(** Program state: the instances allocated so far (an object's identity is
    its index), the outside world, and the trace of external calls. *)
Record St : Type := {
  heap : list TestStreamServiceController;
  world : World;
  trace : list Call;
}.

Definition M (A : Type) : Type := St -> outcome A * St.

Definition ret {A} (a : A) : M A := fun s => (Ret a, s).

Definition bind {A B} (m : M A) (k : A -> M B) : M B :=
  fun s =>
    match m s with
    | (Ret a, s') => k a s'
    | (Raise e, s') => (Raise e, s')
    | (Hang, s') => (Hang, s')
    end.

Definition raise {A} (e : Exn) : M A := fun s => (Raise e, s).

Notation "x <- m ;; k" := (bind m (fun x => k))
  (at level 100, m at next level, right associativity).
Notation "m ;;; k" := (bind m (fun _ => k))
  (at level 100, right associativity).

(** An external call: it acts on the world and is appended to the trace,
    whatever its outcome. *)
Definition extern {A} (c : Call) (op : World -> outcome A * World) : M A :=
  fun s =>
    let (o, w) := op (world s) in
    (o, {| heap := heap s; world := w; trace := trace s ++ [c] |}).

(** Object store. *)
Fixpoint update {A} (l : list A) (i : nat) (f : A -> A) : list A :=
  match l, i with
  | [], _ => []
  | x :: l', O => f x :: l'
  | x :: l', S i' => x :: update l' i' f
  end.

Definition alloc : M ObjRef :=
  fun s => (Ret (length (heap s)),
            {| heap := heap s ++ [blank]; world := world s; trace := trace s |}).

Definition AttributeError (name : string) : Exn :=
  mkExn "AttributeError" name.

Definition getattr {A} (self : ObjRef) (name : string)
    (field : TestStreamServiceController -> option A) : M A :=
  fun s =>
    match nth_error (heap s) self with
    | Some o =>
        match field o with
        | Some v => (Ret v, s)
        | None => (Raise (AttributeError name), s)
        end
    | None => (Raise (AttributeError name), s)
    end.

Definition setattr (self : ObjRef)
    (f : TestStreamServiceController -> TestStreamServiceController) : M unit :=
  fun s => (Ret tt, {| heap := update (heap s) self f;
                       world := world s; trace := trace s |}).

Definition set_server (v : ServerRef) (o : TestStreamServiceController) :=
  {| _server := Some v; endpoint := endpoint o; _reader := _reader o |}.
Definition set_endpoint (v : string) (o : TestStreamServiceController) :=
  {| _server := _server o; endpoint := Some v; _reader := _reader o |}.
Definition set_reader (v : Reader) (o : TestStreamServiceController) :=
  {| _server := _server o; endpoint := endpoint o; _reader := Some v |}.

(** The imported [grpc] (and [beam_runner_api_pb2_grpc]) modules. *)
Variable grpc : Transport.

(** ** The class *)

(** [__init__(self, reader, endpoint=None)]. *)
Definition __init__ (self : ObjRef) (reader : Reader) (endpoint' : option string)
  : M unit :=
  (* self._server = grpc.server(ThreadPoolExecutor(max_workers=10)) *)
  srv <- extern (call_server 10) (server grpc 10) ;;
  setattr self (set_server srv) ;;;
  (* if endpoint: *)
  (if truthy endpoint' then
     match endpoint' with
     | Some address =>
         (* self.endpoint = endpoint
            self._server.add_insecure_port(self.endpoint) *)
         setattr self (set_endpoint address) ;;;
         srv <- getattr self "_server" _server ;;
         ep <- getattr self "endpoint" endpoint ;;
         _ <- extern (call_add_insecure_port srv ep)
                (add_insecure_port grpc srv ep) ;;
         ret tt
     | None => ret tt
     end
   else
     (* port = self._server.add_insecure_port('localhost:0')
        self.endpoint = 'localhost:{}'.format(port) *)
     srv <- getattr self "_server" _server ;;
     port <- extern (call_add_insecure_port srv "localhost:0")
               (add_insecure_port grpc srv "localhost:0") ;;
     setattr self (set_endpoint ("localhost:" ++ str_int port))) ;;;
  (* add_TestStreamServiceServicer_to_server(self, self._server) *)
  srv <- getattr self "_server" _server ;;
  extern (call_add_servicer self srv)
    (add_TestStreamServiceServicer_to_server grpc self srv) ;;;
  (* self._reader = reader *)
  setattr self (set_reader reader).

(** [TestStreamServiceController(reader, endpoint)]: allocate, initialise,
    hand back the reference. *)
Definition new (reader : Reader) (endpoint' : option string) : M ObjRef :=
  self <- alloc ;;
  __init__ self reader endpoint' ;;;
  ret self.

(** [start(self)]. *)
Definition start (self : ObjRef) : M unit :=
  srv <- getattr self "_server" _server ;;
  extern (call_start srv) (server_start grpc srv).

(** [stop(self)]. *)
Definition stop (self : ObjRef) : M unit :=
  (* self._server.stop(0) *)
  srv <- getattr self "_server" _server ;;
  extern (call_stop srv 0) (server_stop grpc srv 0) ;;;
  (* if hasattr(self._server, 'wait_for_termination'): *)
  srv <- getattr self "_server" _server ;;
  if has_wait_for_termination grpc then
    (* self._server.wait_for_termination() *)
    srv <- getattr self "_server" _server ;;
    extern (call_wait_for_termination srv None)
      (wait_for_termination grpc srv None)
  else ret tt.

(** ** The [Events] generator *)

(** The frame of a generator object made by [Events]: not started yet,
    suspended at [yield e] inside the [for] loop (holding the iterator the
    loop runs over, with the reader whose class it belongs to), or
    finished. *)
Inductive Frame : Type :=
| Created (self : ObjRef) (request : EventsRequest)
| Suspended (r : Reader) (it : Iterator)
| Finished.

(** Calling [Events(self, request, context)] only makes the generator
    object; no statement of the body runs before the first [next]. *)
Definition Events (self : ObjRef) (request : EventsRequest) : Frame :=
  Created self request.

(** [tags = [None if tag == 'None' else tag for tag in request.output_ids]] *)
Definition tags_of (request : EventsRequest) : list Tag :=
  map (fun tag => if tag =? "None" then None else Some tag)
      (output_ids request).

(** [[('full', tag) for tag in tags]] *)
Definition keys_of (tags : list Tag) : list ReadKey :=
  map (fun tag => ("full", tag)) tags.

(** One turn of [for e in reader: yield e]: ask the iterator for its next
    element; yield it and suspend, or fall out of the loop and return. *)
Definition loop (r : Reader) (it : Iterator) : M (option Event * Frame) :=
  e <- extern call_next (__next__ r it) ;;
  match e with
  | Some e => ret (Some e, Suspended r it)
  | None => ret (None, Finished)
  end.

(** The body from its first line up to the first [yield] (or the end). *)
Definition body (self : ObjRef) (request : EventsRequest)
  : M (option Event * Frame) :=
  let tags := tags_of request in
  r <- getattr self "_reader" _reader ;;
  reader <- extern (call_read_multiple (keys_of tags))
              (read_multiple r (keys_of tags)) ;;
  it <- extern call_iter (__iter__ r reader) ;;
  loop r it.

(** [next(g)] on a generator in frame [g]: the value yielded ([Ret None]
    is [StopIteration]), the frame afterwards, the state afterwards.  An
    exception leaving the body finishes the generator. *)
Definition resume (g : Frame) (s : St)
  : outcome (option Event) * Frame * St :=
  let settle (res : outcome (option Event * Frame) * St) :=
    match res with
    | (Ret (e, g'), s') => (Ret e, g', s')
    | (Raise x, s') => (Raise x, Finished, s')
    | (Hang, s') => (Hang, g, s')
    end in
  match g with
  | Created self request => settle (body self request s)
  | Suspended r it => settle (loop r it s)
  | Finished => (Ret None, Finished, s)
  end.

(** What a caller that pulls at most [fuel] times receives. *)
Record Run : Type := {
  delivered : list Event;
  ending : Termination;
  frame : Frame;
  final : St;
}.

Fixpoint consume (fuel : nat) (g : Frame) (s : St) : Run :=
  match fuel with
  | O => {| delivered := []; ending := Pending; frame := g; final := s |}
  | S fuel' =>
      match resume g s with
      | (Ret (Some e), g', s') =>
          let run := consume fuel' g' s' in
          {| delivered := e :: delivered run; ending := ending run;
             frame := frame run; final := final run |}
      | (Ret None, g', s') =>
          {| delivered := []; ending := Exhausted; frame := g'; final := s' |}
      | (Raise x, g', s') =>
          {| delivered := []; ending := Failed x; frame := g'; final := s' |}
      | (Hang, g', s') =>
          {| delivered := []; ending := Blocked; frame := g'; final := s' |}
      end
  end.

(** The same consumer put directly on the reader's iterator: the sequence
    the reader produces, how it ends, and the world it leaves. *)
Fixpoint drain (r : Reader) (fuel : nat) (it : Iterator) (w : World)
  : list Event * Termination * World :=
  match fuel with
  | O => ([], Pending, w)
  | S fuel' =>
      match __next__ r it w with
      | (Ret (Some e), w') =>
          let '(es, t, w'') := drain r fuel' it w' in (e :: es, t, w'')
      | (Ret None, w') => ([], Exhausted, w')
      | (Raise x, w') => ([], Failed x, w')
      | (Hang, w') => ([], Blocked, w')
      end
  end.

(** Reading straight from the reader: [read_multiple(keys)], [iter] of the
    result, then the same consumer.  This is the sequence "the reader
    yields for the keys", with the way it ends. *)
Definition reader_run (r : Reader) (fuel : nat) (keys : list ReadKey)
    (w : World) : list Event * Termination * World :=
  match read_multiple r keys w with
  | (Ret reader, w1) =>
      match __iter__ r reader w1 with
      | (Ret it, w2) => drain r fuel it w2
      | (Raise x, w2) => ([], Failed x, w2)
      | (Hang, w2) => ([], Blocked, w2)
      end
  | (Raise x, w1) => ([], Failed x, w1)
  | (Hang, w1) => ([], Blocked, w1)
  end.

(** [self] is an instance whose [_reader] attribute is [r]. *)
Definition has_reader (s : St) (self : ObjRef) (r : Reader) : Prop :=
  exists o, nth_error (heap s) self = Some o /\ _reader o = Some r.

(** [self] is an instance whose [_server] attribute is [srv]. *)
Definition has_server (s : St) (self : ObjRef) (srv : ServerRef) : Prop :=
  exists o, nth_error (heap s) self = Some o /\ _server o = Some srv.

(** The state [s] with another world and more calls on its trace. *)
Definition moved (s : St) (w : World) (calls : list Call) : St :=
  {| heap := heap s; world := w; trace := trace s ++ calls |}.

End Service.

(** ** A concrete world to run the class in

    A small executable stand-in for the two collaborators, used to evaluate
    the controller on concrete inputs.  The server double follows the
    lifecycle of grpcio's [_Server]: its termination event is set only by a
    shutdown of a server that was started, [stop] on a server that is not
    serving returns at once, and [wait_for_termination] without a timeout
    returns only once the termination event is set.  [strict] tells whether
    a failed bind raises [RuntimeError] (recent grpcio) or is reported by
    returning port [0] (older grpcio); [has_wait] whether the server object
    has [wait_for_termination] at all (grpcio 1.24 and later). *)
Module Sim.

Inductive Stage : Type := Idle | Serving | Terminated.

(** What a cached stream holds: an event, or a failure of the storage. *)
Inductive Item : Type :=
| ev (n : nat)
| boom (x : Exn).

Record SimWorld : Type := {
  stage : Stage;
  (* the addresses that can be bound, with the port each one yields *)
  available : list (string * Z);
  (* the recorded streams, by key *)
  cache : list (ReadKey * list Item);
  (* the iterators handed out so far, each with what it has left *)
  iters : list (list Item);
}.

Definition tag_eqb (a b : Tag) : bool :=
  match a, b with
  | None, None => true
  | Some x, Some y => x =? y
  | _, _ => false
  end.

Definition key_eqb (a b : ReadKey) : bool :=
  (fst a =? fst b) && tag_eqb (snd a) (snd b).

Fixpoint lookup {K V} (eqb : K -> K -> bool) (k : K) (l : list (K * V))
  : option V :=
  match l with
  | [] => None
  | (k', v) :: l' => if eqb k k' then Some v else lookup eqb k l'
  end.

Definition set_stage (st : Stage) (w : SimWorld) : SimWorld :=
  {| stage := st; available := available w; cache := cache w;
     iters := iters w |}.

Definition set_iters (its : list (list Item)) (w : SimWorld) : SimWorld :=
  {| stage := stage w; available := available w; cache := cache w;
     iters := its |}.

(** The reader double: the streams of the requested keys, one after the
    other; an unknown key raises [KeyError] when the read is made. *)
Fixpoint gather (c : list (ReadKey * list Item)) (keys : list ReadKey)
  : option (list Item) :=
  match keys with
  | [] => Some []
  | k :: keys' =>
      match lookup key_eqb k c, gather c keys' with
      | Some items, Some rest => Some (items ++ rest)%list
      | _, _ => None
      end
  end.

Definition reader : @Reader nat SimWorld (list Item) nat :=
  {| read_multiple := fun keys w =>
       match gather (cache w) keys with
       | Some items => (Ret items, w)
       | None => (Raise (mkExn "KeyError" "no such key"), w)
       end;
     __iter__ := fun items w =>
       (Ret (length (iters w)), set_iters (iters w ++ [items]) w);
     __next__ := fun it w =>
       match nth_error (iters w) it with
       | Some (ev n :: _) =>
           (Ret (Some n), set_iters (update (iters w) it (@tl Item)) w)
       | Some (boom x :: _) =>
           (Raise x, set_iters (update (iters w) it (fun _ => [])) w)
       | Some [] => (Ret None, w)
       | None => (Raise (mkExn "TypeError" "not an iterator"), w)
       end |}.

(** The server double. *)
Definition grpc (strict has_wait : bool) : @Transport SimWorld :=
  {| server := fun _ w => (Ret O, w);
     add_insecure_port := fun _ address w =>
       match lookup String.eqb address (available w) with
       | Some port => (Ret port, w)
       | None =>
           if strict
           then (Raise (mkExn "RuntimeError" "Failed to bind to address"), w)
           else (Ret 0%Z, w)
       end;
     add_TestStreamServiceServicer_to_server := fun _ _ w => (Ret tt, w);
     server_start := fun _ w => (Ret tt, set_stage Serving w);
     server_stop := fun _ _ w =>
       match stage w with
       | Serving => (Ret tt, set_stage Terminated w)
       | _ => (Ret tt, w)
       end;
     has_wait_for_termination := has_wait;
     wait_for_termination := fun _ timeout w =>
       match stage w, timeout with
       | Terminated, _ => (Ret tt, w)
       | _, Some _ => (Ret tt, w)
       | _, None => (Hang, w)
       end |}.

Definition StorageError : Exn := mkExn "IOError" "storage failure".

(** A machine on which port 8080 is taken, with three recorded streams. *)
Definition w0 : SimWorld :=
  {| stage := Idle;
     available := [("localhost:0", 50051%Z); ("localhost:9090", 9090%Z)];
     cache := [(("full", None), [ev 1; ev 2; ev 3]);
               (("full", Some "a"), [ev 10; ev 11]);
               (("full", Some "bad"), [ev 7; boom StorageError; ev 8])];
     iters := [] |}.

Definition s0 : @St nat SimWorld (list Item) nat :=
  {| heap := []; world := w0; trace := [] |}.

(** The state after [TestStreamServiceController(reader)] on recent
    grpcio, the controller being object [0]. *)
Definition s1 : @St nat SimWorld (list Item) nat :=
  snd (new (grpc true true) reader None s0).

End Sim.

(** * Properties *)

Open Scope list_scope.

(** ** Traces *)

Lemma read_multiple_calls_app (a b : list Call) :
  read_multiple_calls (a ++ b) = read_multiple_calls a ++ read_multiple_calls b.
Proof.
  induction a as [|c a IH]; simpl; [reflexivity|].
  destruct c; simpl; rewrite IH; reflexivity.
Qed.

Lemma bind_calls_app (a b : list Call) :
  bind_calls (a ++ b) = bind_calls a ++ bind_calls b.
Proof.
  induction a as [|c a IH]; simpl; [reflexivity|].
  destruct c; simpl; rewrite IH; reflexivity.
Qed.

Lemma started_app (a b : list Call) :
  started (a ++ b) = started a || started b.
Proof.
  induction a as [|c a IH]; simpl; [reflexivity|].
  destruct c; simpl; auto.
Qed.

(** ** The object store *)

Lemma update_app_new {A} (l : list A) (x : A) (f : A -> A) :
  update (l ++ [x]) (length l) f = l ++ [f x].
Proof.
  induction l as [|y l IH]; simpl; [reflexivity|]. rewrite IH. reflexivity.
Qed.

(** Closes the side goals of a run that stops at once. *)
Ltac stop_here :=
  cbn; repeat split; auto;
  try (rewrite ?read_multiple_calls_app; cbn; rewrite ?app_nil_r; reflexivity);
  try (let H := fresh in intros [H|[? H]]; discriminate H).

Section Streaming.

Context {Event World Iterable Iterator : Type}.

Implicit Types (r : @Reader Event World Iterable Iterator)
               (s : @St Event World Iterable Iterator)
               (it : Iterator).

(** One turn of the loop is one [next] on the reader's iterator. *)
Lemma resume_Suspended r it s :
  resume (Suspended r it) s =
  match __next__ r it (world s) with
  | (Ret (Some e), w) => (Ret (Some e), Suspended r it, moved s w [call_next])
  | (Ret None, w) => (Ret None, Finished, moved s w [call_next])
  | (Raise x, w) => (Raise x, Finished, moved s w [call_next])
  | (Hang, w) => (Hang, Suspended r it, moved s w [call_next])
  end.
Proof.
  unfold resume, loop, bind, extern, moved.
  destruct (__next__ r it (world s)) as [[[e|]|x|] w]; reflexivity.
Qed.

(** A suspended generator delivers what is left of the reader's iterator,
    touches neither the instances nor [read_multiple], and is finished
    once the run has ended. *)
Lemma consume_Suspended r it (fuel : nat) :
  forall s,
    let run := consume fuel (Suspended r it) s in
    (delivered run, ending run, world (final run)) = drain r fuel it (world s)
    /\ heap (final run) = heap s
    /\ read_multiple_calls (trace (final run)) = read_multiple_calls (trace s)
    /\ (ended (ending run) -> frame run = Finished).
Proof.
  induction fuel as [|fuel IH]; intros s; cbn zeta.
  - stop_here.
  - cbn [consume drain]. rewrite resume_Suspended.
    destruct (__next__ r it (world s)) as [[[e|]|x|] w]; try solve [stop_here].
    specialize (IH (moved s w [call_next])). cbn zeta in IH.
    destruct IH as (Hrun & Hheap & Hcalls & Hend). cbn [world moved] in Hrun.
    destruct (drain r fuel it w) as [[es t] w'].
    cbn [delivered ending final frame].
    inversion Hrun; subst. repeat split; auto.
    rewrite Hcalls. cbn [moved trace].
    rewrite read_multiple_calls_app, app_nil_r. reflexivity.
Qed.

(** The first [next] on the generator: the reader is looked up on the
    instance, [read_multiple] is called once with the keys of the request,
    the result is iterated. *)
Lemma consume_Events s (self : ObjRef) r (request : EventsRequest)
    (fuel : nat) :
  has_reader s self r ->
  let keys := keys_of (tags_of request) in
  let run := consume (S fuel) (Events self request) s in
  (delivered run, ending run, world (final run))
    = reader_run r (S fuel) keys (world s)
  /\ heap (final run) = heap s
  /\ read_multiple_calls (trace (final run))
     = read_multiple_calls (trace s) ++ [keys]
  /\ (ended (ending run) -> frame run = Finished).
Proof.
  intros (o & Hself & Hreader). cbn zeta.
  unfold Events, reader_run. cbn [consume].
  unfold resume, body, bind, getattr, extern. rewrite Hself, Hreader.
  destruct (read_multiple r (keys_of (tags_of request)) (world s))
    as [[reader|x|] w1]; cbn [world heap trace]; try solve [stop_here].
  destruct (__iter__ r reader w1) as [[it|x|] w2];
    cbn [world heap trace]; try solve [stop_here].
  unfold loop, bind, extern, ret; cbn [world heap trace drain].
  destruct (__next__ r it w2) as [[[e|]|x|] w3]; try solve [stop_here].
  match goal with
  | |- context [consume fuel (Suspended r it) ?s3] =>
      destruct (consume_Suspended r it fuel s3) as (Hrun & Hheap & Hcalls & Hend);
      remember (consume fuel (Suspended r it) s3) as run eqn:Erun
  end.
  clear Erun. cbn [world heap trace] in Hrun, Hheap, Hcalls.
  destruct (drain r fuel it w3) as [[es t] w'].
  cbn [delivered ending final frame].
  injection Hrun as H1 H2 H3.
  split; [ rewrite H1, H2, H3; reflexivity | ].
  split; [ exact Hheap | ].
  split; [ | exact Hend ].
  rewrite Hcalls, !read_multiple_calls_app. cbn. rewrite !app_nil_r.
  reflexivity.
Qed.

(** Resuming a generator never assigns to an attribute of an instance. *)
Lemma resume_heap (g : @Frame Event World Iterable Iterator) s :
  heap (snd (resume g s)) = heap s.
Proof.
  destruct g as [self request|r it|]; [ | | reflexivity ].
  - unfold resume, body, loop, bind, getattr, extern, ret.
    destruct (nth_error (heap s) self) as [o|]; [ | reflexivity ].
    destruct (_reader o) as [r|]; [ | reflexivity ].
    destruct (read_multiple r _ (world s)) as [[reader|x|] w1];
      cbn [world heap trace]; try reflexivity.
    destruct (__iter__ r reader w1) as [[it|x|] w2];
      cbn [world heap trace]; try reflexivity.
    destruct (__next__ r it w2) as [[[e|]|x|] w3]; reflexivity.
  - rewrite resume_Suspended.
    destruct (__next__ r it (world s)) as [[[e|]|x|] w]; reflexivity.
Qed.

Lemma consume_heap (fuel : nat) :
  forall (g : @Frame Event World Iterable Iterator) s,
    heap (final (consume fuel g s)) = heap s.
Proof.
  induction fuel as [|fuel IH]; intros g s; [reflexivity|].
  cbn [consume]. pose proof (resume_heap g s) as H.
  destruct (resume g s) as [[[[e|]|x|] g'] s']; cbn [snd final] in *; auto.
  rewrite IH. exact H.
Qed.


End Streaming.

(** ** The keys built from a request *)

Lemma keys_nth (request : EventsRequest) (i : nat) :
  nth_error (keys_of (tags_of request)) i
  = option_map (fun id => ("full"%string,
                           if (id =? "None")%string then None else Some id))
               (nth_error (output_ids request) i).
Proof.
  unfold keys_of, tags_of. rewrite !nth_error_map.
  destruct (nth_error (output_ids request) i); reflexivity.
Qed.



Lemma keys_label (request : EventsRequest) :
  Forall (fun k : ReadKey => fst k = "full"%string) (keys_of (tags_of request)).
Proof.
  unfold keys_of. apply Forall_forall. intros k Hk.
  apply in_map_iff in Hk. destruct Hk as (tag & <- & _). reflexivity.
Qed.

(** ** [Events] *)

Section EventsProperties.

Context {Event World Iterable Iterator : Type}.

Implicit Types (r : @Reader Event World Iterable Iterator)
               (s : @St Event World Iterable Iterator).



(** C2.  An output id equal to ['None'] gives, at the same position of the
    keys handed to [read_multiple], a key whose tag is [None]; any other
    id gives a key whose tag is that string. *)
Theorem Events_sentinel_becomes_None s (self : ObjRef) r
    (request : EventsRequest) (fuel : nat) :
  has_reader s self r ->
  exists keys,
    read_multiple_calls
      (trace (final (consume (S fuel) (Events self request) s)))
    = read_multiple_calls (trace s) ++ [keys]
    /\ (forall i, nth_error (output_ids request) i = Some "None"%string ->
          nth_error keys i = Some ("full"%string, None))
    /\ (forall i id, nth_error (output_ids request) i = Some id ->
          id <> "None"%string ->
          nth_error keys i = Some ("full"%string, Some id)).
Proof.
  intros Hself. exists (keys_of (tags_of request)).
  destruct (consume_Events request fuel Hself) as (_ & _ & Hcalls & _).
  split; [exact Hcalls|]. split.
  - intros i Hi. rewrite keys_nth, Hi. reflexivity.
  - intros i id Hi Hne. rewrite keys_nth, Hi. cbn [option_map].
    destruct (String.eqb_spec id "None"); [contradiction|reflexivity].
Qed.


(** C8.  Every key handed to the reader has the label ['full'] as its
    first component, whatever the output ids. *)
Theorem Events_keys_namespace_full s (self : ObjRef) r
    (request : EventsRequest) (fuel : nat) :
  has_reader s self r ->
  exists keys,
    read_multiple_calls
      (trace (final (consume (S fuel) (Events self request) s)))
    = read_multiple_calls (trace s) ++ [keys]
    /\ Forall (fun k : ReadKey => fst k = "full"%string) keys.
Proof.
  intros Hself. exists (keys_of (tags_of request)).
  destruct (consume_Events request fuel Hself) as (_ & _ & Hcalls & _).
  split; [exact Hcalls|apply keys_label].
Qed.

(** C9.  Running [Events], for any request, from any state and for any
    number of pulls, leaves every attribute of every instance as it was:
    the generator only reads [self._reader]. *)
Theorem Events_leaves_instances_unchanged s (self : ObjRef)
    (request : EventsRequest) (fuel : nat) :
  heap (final (consume fuel (Events self request) s)) = heap s.
Proof. apply consume_heap. Qed.


End EventsProperties.

(** ** [Events] on the concrete world

    The controller is object [0] of [Sim.s1]; the cache holds the untagged
    stream [1, 2, 3], the stream [10, 11] of tag ['a'] and the stream of tag
    ['bad'], which fails after its first event. *)

Example Events_run_untagged_then_a :
  let run := consume 9 (Events 0 {| output_ids := ["None"; "a"]%string |}) Sim.s1 in
  delivered run = [1; 2; 3; 10; 11] /\ ending run = Exhausted.
Proof. split; reflexivity. Qed.



Lemma Events_sentinel_becomes_None_witness :
  let request := {| output_ids := ["None"; "a"; "None"]%string |} in
  exists keys,
    read_multiple_calls (trace (final (consume 1 (Events 0 request) Sim.s1)))
    = read_multiple_calls (trace Sim.s1) ++ [keys]
    /\ (forall i, nth_error (output_ids request) i = Some "None"%string ->
          nth_error keys i = Some ("full"%string, None))
    /\ (forall i id, nth_error (output_ids request) i = Some id ->
          id <> "None"%string ->
          nth_error keys i = Some ("full"%string, Some id)).
Proof.
  assert (H : has_reader Sim.s1 0 Sim.reader) by (eexists; split; reflexivity).
  exact (@Events_sentinel_becomes_None _ _ _ _ Sim.s1 0 Sim.reader
           {| output_ids := ["None"; "a"; "None"]%string |} 0 H).
Defined.


Lemma Events_keys_namespace_full_witness :
  let request := {| output_ids := ["a"; "None"; "zzz"]%string |} in
  exists keys,
    read_multiple_calls (trace (final (consume 2 (Events 0 request) Sim.s1)))
    = read_multiple_calls (trace Sim.s1) ++ [keys]
    /\ Forall (fun k : ReadKey => fst k = "full"%string) keys.
Proof.
  assert (H : has_reader Sim.s1 0 Sim.reader) by (eexists; split; reflexivity).
  exact (@Events_keys_namespace_full _ _ _ _ Sim.s1 0 Sim.reader
           {| output_ids := ["a"; "None"; "zzz"]%string |} 1 H).
Defined.


(** A request without output ids: [read_multiple] is called, with [[]]. *)
Example Events_empty_request_still_reads :
  read_multiple_calls
    (trace (final (consume 1 (Events 0 {| output_ids := [] |}) Sim.s1)))
  = [[]].
Proof. reflexivity. Qed.

(** ** The constructor *)

Lemma nth_error_app_new {A} (l : list A) (x : A) :
  nth_error (l ++ [x]) (length l) = Some x.
Proof. induction l as [|y l IH]; simpl; auto. Qed.

(** Reduces attribute reads and writes on the instance just allocated. *)
Ltac store :=
  repeat (cbn [world heap trace set_server set_endpoint set_reader blank
               _server endpoint _reader];
          rewrite ?update_app_new, ?nth_error_app_new).

Section Construction.

Context {Event World Iterable Iterator : Type}.
Variable grpc : @Transport World.

Implicit Types (reader : @Reader Event World Iterable Iterator)
               (s : @St Event World Iterable Iterator).

(** The run of [__init__] up to the bind, on the branch taken when no
    usable address was given. *)
Lemma new_ephemeral reader ep s srv w1 :
  truthy ep = false ->
  server grpc 10 (world s) = (Ret srv, w1) ->
  new grpc reader ep s =
  let self := length (heap s) in
  let t1 := (trace s ++ [call_server 10])
              ++ [call_add_insecure_port srv "localhost:0"] in
  match add_insecure_port grpc srv "localhost:0" w1 with
  | (Ret port, w2) =>
      let ep' := Some ("localhost:" ++ str_int port)%string in
      match add_TestStreamServiceServicer_to_server grpc self srv w2 with
      | (Ret _, w3) =>
          (Ret self,
           {| heap := heap s ++ [{| _server := Some srv; endpoint := ep';
                                    _reader := Some reader |}];
              world := w3; trace := t1 ++ [call_add_servicer self srv] |})
      | (Raise x, w3) =>
          (Raise x,
           {| heap := heap s ++ [{| _server := Some srv; endpoint := ep';
                                    _reader := None |}];
              world := w3; trace := t1 ++ [call_add_servicer self srv] |})
      | (Hang, w3) =>
          (Hang,
           {| heap := heap s ++ [{| _server := Some srv; endpoint := ep';
                                    _reader := None |}];
              world := w3; trace := t1 ++ [call_add_servicer self srv] |})
      end
  | (Raise x, w2) =>
      (Raise x,
       {| heap := heap s ++ [{| _server := Some srv; endpoint := None;
                                _reader := None |}];
          world := w2; trace := t1 |})
  | (Hang, w2) =>
      (Hang,
       {| heap := heap s ++ [{| _server := Some srv; endpoint := None;
                                _reader := None |}];
          world := w2; trace := t1 |})
  end.
Proof.
  intros Hep Hsrv.
  unfold new, __init__, bind, alloc, extern, setattr, getattr, ret.
  cbn [world heap trace]. rewrite Hsrv, Hep. store.
  destruct (add_insecure_port grpc srv "localhost:0" w1) as [[port|x|] w2];
    store; try reflexivity.
  destruct (add_TestStreamServiceServicer_to_server grpc (length (heap s)) srv w2)
    as [[[]|x|] w3]; store; reflexivity.
Qed.

(** The same on the branch taken for a non-empty address. *)
Lemma new_explicit reader address s srv w1 :
  address <> ""%string ->
  server grpc 10 (world s) = (Ret srv, w1) ->
  new grpc reader (Some address) s =
  let self := length (heap s) in
  let t1 := (trace s ++ [call_server 10])
              ++ [call_add_insecure_port srv address] in
  match add_insecure_port grpc srv address w1 with
  | (Ret port, w2) =>
      match add_TestStreamServiceServicer_to_server grpc self srv w2 with
      | (Ret _, w3) =>
          (Ret self,
           {| heap := heap s ++ [{| _server := Some srv;
                                    endpoint := Some address;
                                    _reader := Some reader |}];
              world := w3; trace := t1 ++ [call_add_servicer self srv] |})
      | (Raise x, w3) =>
          (Raise x,
           {| heap := heap s ++ [{| _server := Some srv;
                                    endpoint := Some address;
                                    _reader := None |}];
              world := w3; trace := t1 ++ [call_add_servicer self srv] |})
      | (Hang, w3) =>
          (Hang,
           {| heap := heap s ++ [{| _server := Some srv;
                                    endpoint := Some address;
                                    _reader := None |}];
              world := w3; trace := t1 ++ [call_add_servicer self srv] |})
      end
  | (Raise x, w2) =>
      (Raise x,
       {| heap := heap s ++ [{| _server := Some srv; endpoint := Some address;
                                _reader := None |}];
          world := w2; trace := t1 |})
  | (Hang, w2) =>
      (Hang,
       {| heap := heap s ++ [{| _server := Some srv; endpoint := Some address;
                                _reader := None |}];
          world := w2; trace := t1 |})
  end.
Proof.
  intros Hne Hsrv.
  assert (Hep : truthy (Some address) = true).
  { cbn [truthy]. destruct (String.eqb_spec address ""); [contradiction|reflexivity]. }
  unfold new, __init__, bind, alloc, extern, setattr, getattr, ret.
  cbn [world heap trace]. rewrite Hsrv, Hep. store.
  destruct (add_insecure_port grpc srv address w1) as [[port|x|] w2];
    store; try reflexivity.
  destruct (add_TestStreamServiceServicer_to_server grpc (length (heap s)) srv w2)
    as [[[]|x|] w3]; store; reflexivity.
Qed.

(** C5.  Constructed without a usable address, the server asks the
    transport for ['localhost:0'], and its [endpoint] is ['localhost:']
    followed by the port the transport returned: a non-empty string, set
    by the time the constructor returns, with no [start] issued. *)
Theorem new_without_address_binds_ephemeral reader ep s srv port w1 w2 w3 :
  truthy ep = false ->
  server grpc 10 (world s) = (Ret srv, w1) ->
  add_insecure_port grpc srv "localhost:0" w1 = (Ret port, w2) ->
  add_TestStreamServiceServicer_to_server grpc (length (heap s)) srv w2
    = (Ret tt, w3) ->
  let self := length (heap s) in
  let res := new grpc reader ep s in
  let address := ("localhost:" ++ str_int port)%string in
  fst res = Ret self
  /\ bind_calls (trace (snd res)) = bind_calls (trace s) ++ ["localhost:0"%string]
  /\ getattr self "endpoint" endpoint (snd res) = (Ret address, snd res)
  /\ address <> ""%string
  /\ started (trace (snd res)) = started (trace s).
Proof.
  intros Hep Hsrv Hport Hreg. cbv zeta.
  rewrite (new_ephemeral reader ep s Hep Hsrv). cbv zeta.
  rewrite Hport, Hreg. cbn [fst snd trace].
  repeat split.
  - rewrite !bind_calls_app. cbn. rewrite !app_nil_r. reflexivity.
  - unfold getattr. store. reflexivity.
  - discriminate.
  - rewrite !started_app. cbn. rewrite !orb_false_r. reflexivity.
Qed.


(** ** [stop] *)

(** [stop] looks at nothing but [self._server]: it calls the transport's
    [stop(0)] and then, when the server object has the method,
    [wait_for_termination()] with no timeout. *)
Lemma stop_run s (self : ObjRef) (srv : ServerRef) :
  has_server s self srv ->
  stop grpc self s =
  match server_stop grpc srv 0 (world s) with
  | (Ret _, w1) =>
      if has_wait_for_termination grpc then
        let (o, w2) := wait_for_termination grpc srv None w1 in
        (o, moved s w2 [call_stop srv 0; call_wait_for_termination srv None])
      else (Ret tt, moved s w1 [call_stop srv 0])
  | (Raise x, w1) => (Raise x, moved s w1 [call_stop srv 0])
  | (Hang, w1) => (Hang, moved s w1 [call_stop srv 0])
  end.
Proof.
  intros (o & Hself & Hsrv).
  unfold stop, bind, getattr, extern, ret, moved. rewrite Hself, Hsrv.
  destruct (server_stop grpc srv 0 (world s)) as [[[]|x|] w1];
    cbn [world heap trace]; try reflexivity.
  rewrite Hself, Hsrv.
  destruct (has_wait_for_termination grpc); [|reflexivity].
  cbn [world heap trace]. rewrite Hself, Hsrv. cbn [world heap trace].
  destruct (wait_for_termination grpc srv None w1) as [r w2].
  rewrite <- app_assoc. reflexivity.
Qed.

(** C7, as the code has it.  In every state [stop] leaves the instances
    as they were (so it can be called again, and does the same), always
    begins by asking the transport to stop with grace [0], and keeps no
    account of whether the server was started or stopped; it ends as the
    transport's calls end: with [stop(0)] alone where there is no
    [wait_for_termination], and otherwise with whatever the wait without
    timeout does, blocking included. *)
Theorem stop_delegates_in_every_state s (self : ObjRef) (srv : ServerRef) :
  has_server s self srv ->
  let res := stop grpc self s in
  heap (snd res) = heap s
  /\ has_server (snd res) self srv
  /\ (exists rest, trace (snd res) = trace s ++ call_stop srv 0 :: rest)
  /\ (has_wait_for_termination grpc = false ->
      forall w1, server_stop grpc srv 0 (world s) = (Ret tt, w1) ->
                 res = (Ret tt, moved s w1 [call_stop srv 0]))
  /\ (has_wait_for_termination grpc = true ->
      forall w1 o w2,
        server_stop grpc srv 0 (world s) = (Ret tt, w1) ->
        wait_for_termination grpc srv None w1 = (o, w2) ->
        res = (o, moved s w2 [call_stop srv 0;
                              call_wait_for_termination srv None])).
Proof.
  intros Hself. cbv zeta. rewrite (stop_run Hself).
  assert (Hheap :
    heap (snd (match server_stop grpc srv 0 (world s) with
               | (Ret _, w1) =>
                   if has_wait_for_termination grpc then
                     let (o, w2) := wait_for_termination grpc srv None w1 in
                     (o, moved s w2 [call_stop srv 0;
                                     call_wait_for_termination srv None])
                   else (Ret tt, moved s w1 [call_stop srv 0])
               | (Raise x, w1) => (Raise x, moved s w1 [call_stop srv 0])
               | (Hang, w1) => (Hang, moved s w1 [call_stop srv 0])
               end)) = heap s).
  { destruct (server_stop grpc srv 0 (world s)) as [[[]|x|] w1];
      try reflexivity.
    destruct (has_wait_for_termination grpc); [|reflexivity].
    destruct (wait_for_termination grpc srv None w1); reflexivity. }
  split; [exact Hheap|]. split; [|split; [|split]].
  - destruct Hself as (o & Ho & Hs). exists o. rewrite Hheap. auto.
  - destruct (server_stop grpc srv 0 (world s)) as [[[]|x|] w1];
      try (eexists; reflexivity).
    destruct (has_wait_for_termination grpc); [|eexists; reflexivity].
    destruct (wait_for_termination grpc srv None w1); eexists; reflexivity.
  - intros Hno w1 H1. rewrite H1, Hno. reflexivity.
  - intros Hyes w1 o w2 H1 H2. rewrite H1, Hyes, H2. reflexivity.
Qed.

End Construction.

(** ** The constructor and [stop] on the concrete world *)

Lemma new_without_address_binds_ephemeral_witness :
  let res := new (Sim.grpc true true) Sim.reader None Sim.s0 in
  fst res = Ret 0
  /\ bind_calls (trace (snd res))
     = bind_calls (trace Sim.s0) ++ ["localhost:0"%string]
  /\ getattr 0 "endpoint" endpoint (snd res)
     = (Ret "localhost:50051"%string, snd res)
  /\ "localhost:50051"%string <> ""%string
  /\ started (trace (snd res)) = started (trace Sim.s0).
Proof.
  exact (@new_without_address_binds_ephemeral _ _ _ _ (Sim.grpc true true)
           Sim.reader None Sim.s0 0 50051%Z Sim.w0 Sim.w0 Sim.w0
           eq_refl eq_refl eq_refl eq_refl).
Defined.



(** On recent grpcio the same unavailable address makes the constructor
    raise what the transport raised. *)
Example new_with_unavailable_address_raises :
  fst (new (Sim.grpc true true) Sim.reader (Some "localhost:8080"%string) Sim.s0)
  = Raise (mkExn "RuntimeError" "Failed to bind to address").
Proof. reflexivity. Qed.

Lemma stop_delegates_in_every_state_witness :
  let grpc := Sim.grpc true true in
  let res := stop grpc 0 Sim.s1 in
  heap (snd res) = heap Sim.s1
  /\ has_server (snd res) 0 0
  /\ (exists rest, trace (snd res) = trace Sim.s1 ++ call_stop 0 0 :: rest)
  /\ (has_wait_for_termination grpc = false ->
      forall w1, server_stop grpc 0 0 (world Sim.s1) = (Ret tt, w1) ->
                 res = (Ret tt, moved Sim.s1 w1 [call_stop 0 0]))
  /\ (has_wait_for_termination grpc = true ->
      forall w1 o w2,
        server_stop grpc 0 0 (world Sim.s1) = (Ret tt, w1) ->
        wait_for_termination grpc 0 None w1 = (o, w2) ->
        res = (o, moved Sim.s1 w2 [call_stop 0 0;
                                   call_wait_for_termination 0 None])).
Proof.
  refine (@stop_delegates_in_every_state _ _ _ _ (Sim.grpc true true)
            Sim.s1 0 0 _).
  eexists. split; reflexivity.
Defined.

(** C7 does not hold as stated.  On a server that was constructed and never
    started, [stop] is not a no-op and does not return: it issues [stop(0)]
    and then [wait_for_termination()] with no timeout, which waits for a
    termination event that only the shutdown of a started server sets. *)
Lemma stop_before_start_counterexample :
  let res := stop (Sim.grpc true true) 0 Sim.s1 in
  started (trace Sim.s1) = false
  /\ fst res = Hang
  /\ trace (snd res)
     = trace Sim.s1 ++ [call_stop 0 0; call_wait_for_termination 0 None].
Proof. repeat split; reflexivity. Qed.

(** After [start], a first and a second [stop] both return on this
    transport; without [wait_for_termination], [stop] before [start] returns
    too. *)
Example stop_twice_after_start :
  let grpc := Sim.grpc true true in
  let s2 := snd (start grpc 0 Sim.s1) in
  let first := stop grpc 0 s2 in
  let second := stop grpc 0 (snd first) in
  fst first = Ret tt /\ fst second = Ret tt
  /\ heap (snd second) = heap Sim.s1.
Proof. repeat split; reflexivity. Qed.

Example stop_before_start_without_wait :
  fst (stop (Sim.grpc true false) 0 Sim.s1) = Ret tt.
Proof. reflexivity. Qed.

(** * Further properties *)

(** ** Traces of reader calls *)

Lemma next_calls_app (a b : list Call) :
  next_calls (a ++ b) = next_calls a + next_calls b.
Proof.
  induction a as [|c a IH]; simpl; [reflexivity|].
  destruct c; simpl; rewrite IH; reflexivity.
Qed.

Lemma reader_calls_no_bind (calls : list Call) :
  forallb is_reader_call calls = true -> bind_calls calls = [].
Proof.
  induction calls as [|c calls IH]; simpl; [reflexivity|].
  destruct c; simpl; intros H; try discriminate H; auto.
Qed.

Lemma reader_calls_no_start (calls : list Call) :
  forallb is_reader_call calls = true -> started calls = false.
Proof.
  induction calls as [|c calls IH]; simpl; [reflexivity|].
  destruct c; simpl; intros H; try discriminate H; auto.
Qed.

Ltac step_done :=
  first
    [ exists []; split; [rewrite app_nil_r; reflexivity|]
    | eexists; split; [rewrite <- ?app_assoc; reflexivity|] ];
  cbn; repeat split; auto; try discriminate; try lia;
  try (let H := fresh in intros ? <- [H|[? H]]; discriminate H).

Section Pulling.

Context {Event World Iterable Iterator : Type}.

Implicit Types (r : @Reader Event World Iterable Iterator)
               (s : @St Event World Iterable Iterator)
               (g : @Frame Event World Iterable Iterator).

(** One [next] on the generator only talks to the reader, asks its iterator
    for at most one element, for exactly one when it yields, and leaves the
    generator finished when it stops or fails. *)
Lemma resume_trace g s :
  exists calls,
    trace (snd (resume g s)) = trace s ++ calls
    /\ forallb is_reader_call calls = true
    /\ next_calls calls <= 1
    /\ (forall e, fst (fst (resume g s)) = Ret (Some e) -> next_calls calls = 1)
    /\ (forall o, fst (fst (resume g s)) = o -> o = Ret None \/ (exists x, o = Raise x) ->
        snd (fst (resume g s)) = Finished).
Proof.
  destruct g as [self request|r it|].
  - unfold resume, body, loop, bind, getattr, extern, ret.
    destruct (nth_error (heap s) self) as [o|]; [|step_done].
    destruct (_reader o) as [r|]; [|step_done].
    destruct (read_multiple r _ (world s)) as [[reader|x|] w1];
      cbn [world heap trace]; try solve [step_done].
    destruct (__iter__ r reader w1) as [[it|x|] w2];
      cbn [world heap trace]; try solve [step_done].
    destruct (__next__ r it w2) as [[[e|]|x|] w3]; step_done.
  - rewrite resume_Suspended.
    destruct (__next__ r it (world s)) as [[[e|]|x|] w]; step_done.
  - step_done.
Qed.

(** The same for a whole run of the consumer. *)
Lemma consume_trace (fuel : nat) :
  forall g s,
    let run := consume fuel g s in
    exists calls,
      trace (final run) = trace s ++ calls
      /\ forallb is_reader_call calls = true
      /\ next_calls calls <= length (delivered run) + 1
      /\ (ending run = Pending -> next_calls calls = length (delivered run))
      /\ length (delivered run) <= fuel
      /\ (ended (ending run) -> frame run = Finished).
Proof.
  induction fuel as [|fuel IH]; intros g s; cbv zeta.
  - exists []. cbn. rewrite app_nil_r. repeat split; auto.
    intros [H|[x H]]; discriminate H.
  - cbn [consume].
    destruct (resume_trace g s) as (c1 & Ht & Hr & Hb & Hy & Hf).
    destruct (resume g s) as [[[[e|]|x|] g'] s']; cbn [fst snd] in *.
    + specialize (IH g' s'). cbv zeta in IH.
      destruct IH as (c2 & Ht2 & Hr2 & Hb2 & Hp2 & Hl2 & He2).
      cbn [delivered ending frame final length].
      exists (c1 ++ c2). rewrite Ht2, Ht, <- app_assoc.
      rewrite forallb_app, Hr, Hr2, next_calls_app.
      rewrite (Hy e eq_refl).
      repeat split; auto; try lia.
      all: try (intros H; rewrite (Hp2 H); reflexivity).
    + exists c1. cbn. repeat split; auto; try lia; try discriminate.
      all: try (intros _; apply (Hf (Ret None)); auto).
    + exists c1. cbn. repeat split; auto; try lia; try discriminate.
      all: try (intros _; apply (Hf (Raise x)); eauto).
    + exists c1. cbn. repeat split; auto; try lia; try discriminate.
      all: try (intros [H|[y H]]; discriminate H).
Qed.

End Pulling.

(** ** More on [Events] *)


Lemma tag_injective (a b : string) :
  (if (a =? "None")%string then None else Some a)
  = (if (b =? "None")%string then None else Some b) ->
  a = b.
Proof.
  destruct (String.eqb_spec a "None") as [->|Ha];
    destruct (String.eqb_spec b "None") as [->|Hb]; congruence.
Qed.

Section EventsFurther.

Context {Event World Iterable Iterator : Type}.

Implicit Types (r : @Reader Event World Iterable Iterator)
               (s : @St Event World Iterable Iterator).

(** [Events] only ever talks to the reader: whatever the request, the
    state and the number of pulls, the calls it adds to the trace are
    [read_multiple], [iter] and [next]; nothing is bound, started or
    stopped. *)
Theorem Events_only_talks_to_reader s (self : ObjRef)
    (request : EventsRequest) (fuel : nat) :
  let run := consume fuel (Events self request) s in
  exists calls,
    trace (final run) = trace s ++ calls
    /\ forallb is_reader_call calls = true
    /\ bind_calls (trace (final run)) = bind_calls (trace s)
    /\ started (trace (final run)) = started (trace s).
Proof.
  cbv zeta.
  destruct (consume_trace fuel (Events self request) s)
    as (calls & Ht & Hr & _).
  exists calls. rewrite Ht. repeat split; auto.
  - rewrite bind_calls_app, (reader_calls_no_bind _ Hr), app_nil_r. reflexivity.
  - rewrite started_app, (reader_calls_no_start _ Hr), orb_false_r. reflexivity.
Qed.


(** Once a run has ended, by exhaustion or by an exception, the generator
    is finished for good: pulling again delivers nothing, does not raise
    again, and makes no call at all. *)
Theorem Events_ended_stays_ended s (self : ObjRef)
    (request : EventsRequest) (fuel : nat) :
  let run := consume fuel (Events self request) s in
  ended (ending run) ->
  forall more,
    let again := consume more (frame run) (final run) in
    delivered again = []
    /\ final again = final run
    /\ forall x, ending again <> Failed x.
Proof.
  cbv zeta. intros Hend more.
  destruct (consume_trace fuel (Events self request) s)
    as (calls & _ & _ & _ & _ & _ & Hfin).
  rewrite (Hfin Hend). destruct more; cbn; repeat split; discriminate.
Qed.


End EventsFurther.

(** Two requests that are read with the same keys have the same output
    ids: normalising ['None'] loses nothing. *)
Theorem keys_determine_request (a b : EventsRequest) :
  keys_of (tags_of a) = keys_of (tags_of b) -> output_ids a = output_ids b.
Proof.
  unfold keys_of, tags_of. destruct a as [ids], b as [ids']. cbn [output_ids].
  revert ids'. induction ids as [|x ids IH]; intros [|y ids'] H;
    cbn in H; try discriminate H; [reflexivity|].
  injection H as Hxy Hrest.
  rewrite (tag_injective _ _ Hxy), (IH ids' Hrest). reflexivity.
Qed.

Lemma Events_ended_stays_ended_witness :
  let run := consume 4 (Events 0 {| output_ids := ["bad"%string] |}) Sim.s1 in
  let again := consume 3 (frame run) (final run) in
  delivered again = []
  /\ final again = final run
  /\ forall x, ending again <> Failed x.
Proof.
  refine (@Events_ended_stays_ended _ _ _ _ Sim.s1 0
            {| output_ids := ["bad"%string] |} 4 _ 3).
  right. eexists. reflexivity.
Defined.


Example Events_second_call_after_failure :
  let run1 := consume 3 (Events 0 {| output_ids := ["bad"%string] |}) Sim.s1 in
  let run2 := consume 7 (Events 0 {| output_ids := ["None"; "a"]%string |})
                (final run1) in
  ending run1 = Failed Sim.StorageError
  /\ delivered run2 = [1; 2; 3; 10; 11] /\ ending run2 = Exhausted.
Proof. repeat split; reflexivity. Qed.

Lemma keys_determine_request_witness :
  output_ids {| output_ids := ["None"; "a"]%string |}
  = output_ids {| output_ids := ["None"; "a"]%string |}.
Proof.
  exact (@keys_determine_request {| output_ids := ["None"; "a"]%string |}
           {| output_ids := ["None"; "a"]%string |} eq_refl).
Defined.

(** ** More on the constructor and on [start] *)

Lemma truthy_true (ep : option string) :
  truthy ep = true ->
  exists address, ep = Some address /\ address <> ""%string
                  /\ bind_address ep = address.
Proof.
  destruct ep as [a|]; [|discriminate]. intros H. exists a.
  unfold bind_address. rewrite H. repeat split.
  intros ->. discriminate H.
Qed.

Lemma truthy_false (ep : option string) :
  truthy ep = false -> bind_address ep = "localhost:0"%string.
Proof. unfold bind_address. intros ->. destruct ep; reflexivity. Qed.

Section ConstructionFurther.

Context {Event World Iterable Iterator : Type}.
Variable grpc : @Transport World.

Implicit Types (reader : @Reader Event World Iterable Iterator)
               (s : @St Event World Iterable Iterator).

(** When [grpc.server] itself does not return, nothing else is done. *)
Lemma new_server_fails reader ep s w1 :
  (forall srv, server grpc 10 (world s) <> (Ret srv, w1)) ->
  snd (server grpc 10 (world s)) = w1 ->
  new grpc reader ep s =
  (match fst (server grpc 10 (world s)) with
   | Raise x => Raise x
   | _ => Hang
   end,
   {| heap := heap s ++ [blank]; world := w1;
      trace := trace s ++ [call_server 10] |}).
Proof.
  intros Hno Hw.
  unfold new, __init__, bind, alloc, extern, setattr, getattr, ret.
  cbn [world heap trace].
  destruct (server grpc 10 (world s)) as [[srv|x|] w]; cbn [fst snd] in *;
    subst w; [exfalso; apply (Hno srv); reflexivity| | ]; reflexivity.
Qed.

(** The run of the constructor in full: how it ends and the state it
    leaves, by the outcomes of its three calls to the transport. *)
Lemma new_run reader ep s :
  new grpc reader ep s =
  let self := length (heap s) in
  let address := bind_address ep in
  let given := if truthy ep then Some address else None in
  match server grpc 10 (world s) with
  | (Ret srv, w1) =>
      let t1 := (trace s ++ [call_server 10])
                  ++ [call_add_insecure_port srv address] in
      match add_insecure_port grpc srv address w1 with
      | (Ret port, w2) =>
          let ep' := if truthy ep then Some address
                     else Some ("localhost:" ++ str_int port)%string in
          match add_TestStreamServiceServicer_to_server grpc self srv w2 with
          | (Ret _, w3) =>
              (Ret self,
               {| heap := heap s ++ [{| _server := Some srv; endpoint := ep';
                                        _reader := Some reader |}];
                  world := w3; trace := t1 ++ [call_add_servicer self srv] |})
          | (Raise x, w3) =>
              (Raise x,
               {| heap := heap s ++ [{| _server := Some srv; endpoint := ep';
                                        _reader := None |}];
                  world := w3; trace := t1 ++ [call_add_servicer self srv] |})
          | (Hang, w3) =>
              (Hang,
               {| heap := heap s ++ [{| _server := Some srv; endpoint := ep';
                                        _reader := None |}];
                  world := w3; trace := t1 ++ [call_add_servicer self srv] |})
          end
      | (Raise x, w2) =>
          (Raise x,
           {| heap := heap s ++ [{| _server := Some srv; endpoint := given;
                                    _reader := None |}];
              world := w2; trace := t1 |})
      | (Hang, w2) =>
          (Hang,
           {| heap := heap s ++ [{| _server := Some srv; endpoint := given;
                                    _reader := None |}];
              world := w2; trace := t1 |})
      end
  | (Raise x, w1) =>
      (Raise x, {| heap := heap s ++ [blank]; world := w1;
                   trace := trace s ++ [call_server 10] |})
  | (Hang, w1) =>
      (Hang, {| heap := heap s ++ [blank]; world := w1;
                trace := trace s ++ [call_server 10] |})
  end.
Proof.
  cbv zeta.
  destruct (server grpc 10 (world s)) as [[srv|x|] w1] eqn:Hsrv.
  - destruct (truthy ep) eqn:Hep.
    + destruct (truthy_true ep Hep) as (a & -> & Hne & ->).
      rewrite (new_explicit grpc reader s Hne Hsrv). reflexivity.
    + rewrite (truthy_false ep Hep).
      rewrite (new_ephemeral grpc reader ep s Hep Hsrv). reflexivity.
  - rewrite (new_server_fails reader ep s (w1 := w1)); rewrite Hsrv;
      [reflexivity|discriminate|reflexivity].
  - rewrite (new_server_fails reader ep s (w1 := w1)); rewrite Hsrv;
      [reflexivity|discriminate|reflexivity].
Qed.

End ConstructionFurther.

(** Splits a goal about [new] into the ways the constructor can run. *)
Ltac new_cases grpc reader ep s :=
  rewrite (new_run grpc reader ep s) in *; cbv zeta in *;
  let srv := fresh "srv" in
  let w1 := fresh "w1" in
  let w2 := fresh "w2" in
  let w3 := fresh "w3" in
  let port := fresh "port" in
  let x := fresh "x" in
  let Hsrv := fresh "Hsrv" in
  let Hbind := fresh "Hbind" in
  let Hreg := fresh "Hreg" in
  destruct (server grpc 10 (world s)) as [[srv|x|] w1] eqn:Hsrv;
  [ destruct (add_insecure_port grpc srv (bind_address ep) w1)
      as [[port|x|] w2] eqn:Hbind;
    [ destruct (add_TestStreamServiceServicer_to_server grpc
                  (length (heap s)) srv w2) as [[[]|x|] w3] eqn:Hreg
    | | ]
  | | ];
  cbn [fst snd heap world trace] in *.

(** [str] of an integer can be read back. *)
Lemma str_int_injective (p q : Z) : str_int p = str_int q -> p = q.
Proof.
  unfold str_int. intros H.
  assert (Hnil : forall z, Z.to_int z <> Decimal.Pos Decimal.Nil
                           /\ Z.to_int z <> Decimal.Neg Decimal.Nil).
  { intros [|z|z]; cbn; split; try discriminate;
      intros [= Hz]; exact (DecimalPos.Unsigned.to_uint_nonnil z Hz). }
  apply (f_equal NilZero.int_of_string) in H.
  rewrite !NilZero.isi in H by apply Hnil.
  injection H as H. apply (f_equal Z.of_int) in H.
  rewrite !DecimalZ.of_to in H. exact H.
Qed.

Section LifecycleFurther.

Context {Event World Iterable Iterator : Type}.
Variable grpc : @Transport World.

Implicit Types (reader : @Reader Event World Iterable Iterator)
               (s : @St Event World Iterable Iterator).

(** What a constructor that returned has left behind. *)
Lemma new_returned reader ep s (self : ObjRef) s' :
  new grpc reader ep s = (Ret self, s') ->
  self = length (heap s)
  /\ length (heap s') = S (length (heap s))
  /\ has_reader s' self reader
  /\ exists srv address,
       fst (server grpc 10 (world s)) = Ret srv
       /\ has_server s' self srv
       /\ getattr self "endpoint" endpoint s' = (Ret address, s').
Proof.
  intros H. new_cases grpc reader ep s; try discriminate H.
  injection H as <- <-. unfold has_reader, has_server, getattr. cbn [heap].
  split; [reflexivity|]. split; [rewrite length_app; cbn; lia|].
  split; [eexists; split; [apply nth_error_app_new|reflexivity]|].
  exists srv. rewrite nth_error_app_new. cbn [endpoint].
  destruct (truthy ep); eexists; (split; [reflexivity|]);
    (split; [eexists; split; reflexivity|reflexivity]).
Qed.

(** A constructor that returns has set all three attributes of a new
    object: [_server] is the server [grpc.server] returned, [_reader] the
    reader it was given, and [endpoint] a string.  So [start], [stop] and
    [Events] find what they read. *)
Theorem new_sets_all_attributes reader ep s (self : ObjRef) s' :
  new grpc reader ep s = (Ret self, s') ->
  self = length (heap s)
  /\ length (heap s') = S (length (heap s))
  /\ has_reader s' self reader
  /\ exists srv address,
       fst (server grpc 10 (world s)) = Ret srv
       /\ has_server s' self srv
       /\ getattr self "endpoint" endpoint s' = (Ret address, s').
Proof. apply new_returned. Qed.

(** Constructing a controller, whether it succeeds or not, leaves the
    controllers that exist as they are: it only adds one object. *)
Theorem new_keeps_other_instances reader ep s :
  let s' := snd (new grpc reader ep s) in
  (exists o, heap s' = heap s ++ [o])
  /\ (forall other r, has_reader s other r -> has_reader s' other r)
  /\ (forall other srv, has_server s other srv -> has_server s' other srv).
Proof.
  cbv zeta.
  assert (H : exists o, heap (snd (new grpc reader ep s)) = heap s ++ [o]).
  { new_cases grpc reader ep s; eexists; reflexivity. }
  destruct H as (o & H). split; [exists o; exact H|].
  split; intros other v (o' & Ho & Hv); exists o'; rewrite H;
    (split; [|exact Hv]);
    rewrite nth_error_app1; auto; apply nth_error_Some; congruence.
Qed.

(** The constructor never starts the server and never touches the reader:
    however it runs, its first call makes the server with a pool of ten
    workers, and no [start], [read_multiple] or [next] is issued. *)
Theorem new_never_starts_or_reads reader ep s :
  let s' := snd (new grpc reader ep s) in
  (exists rest, trace s' = trace s ++ call_server 10 :: rest)
  /\ started (trace s') = started (trace s)
  /\ read_multiple_calls (trace s') = read_multiple_calls (trace s)
  /\ next_calls (trace s') = next_calls (trace s).
Proof.
  cbv zeta. new_cases grpc reader ep s;
    (split; [eexists; rewrite <- ?app_assoc; reflexivity|]);
    rewrite ?started_app, ?read_multiple_calls_app, ?next_calls_app; cbn;
    rewrite ?orb_false_r, ?app_nil_r, ?Nat.add_0_r; auto.
Qed.

(** The constructor raises nothing of its own: an exception leaving it was
    raised by [grpc.server], by [add_insecure_port] or by the registration
    of the servicer, and each is attempted only if the one before
    returned. *)
Theorem new_raises_only_transport_errors reader ep s (x : Exn) :
  fst (new grpc reader ep s) = Raise x ->
  fst (server grpc 10 (world s)) = Raise x
  \/ exists srv w1,
       server grpc 10 (world s) = (Ret srv, w1)
       /\ (fst (add_insecure_port grpc srv (bind_address ep) w1) = Raise x
           \/ exists port w2,
                add_insecure_port grpc srv (bind_address ep) w1 = (Ret port, w2)
                /\ fst (add_TestStreamServiceServicer_to_server grpc
                          (length (heap s)) srv w2) = Raise x).
Proof.
  intros H. new_cases grpc reader ep s; try discriminate H.
  - right. exists srv, w1. split; [reflexivity|]. right.
    exists port, w2. split; [exact Hbind|]. rewrite Hreg.
    injection H as ->. reflexivity.
  - right. exists srv, w1. split; [reflexivity|]. left.
    rewrite Hbind. injection H as ->. reflexivity.
  - left. injection H as ->. reflexivity.
Qed.

(** A constructor that returns has made exactly three calls, in this
    order: the server is made, the address is bound (the one given, or
    ['localhost:0']), the servicer is registered. *)
Theorem new_call_sequence reader ep s (self : ObjRef) s' :
  new grpc reader ep s = (Ret self, s') ->
  exists srv,
    trace s' = trace s ++ [call_server 10;
                           call_add_insecure_port srv (bind_address ep);
                           call_add_servicer self srv].
Proof.
  intros H. new_cases grpc reader ep s; try discriminate H.
  injection H as <- <-. exists srv. cbn [trace].
  rewrite <- !app_assoc. reflexivity.
Qed.

(** [start] looks at nothing but [self._server]. *)
Lemma start_run s (self : ObjRef) (srv : ServerRef) :
  has_server s self srv ->
  start grpc self s =
  let (o, w) := server_start grpc srv (world s) in
  (o, moved s w [call_start srv]).
Proof.
  intros (o & Hself & Hsrv).
  unfold start, bind, getattr, extern, moved. rewrite Hself, Hsrv.
  reflexivity.
Qed.

(** After a constructor that returned, [start] and [stop] act on the server
    the constructor made, in any later state that has the same instances:
    [start] makes the one call [start()] on it and ends as that call ends;
    [stop] begins with [stop(0)] on it. *)
Theorem start_and_stop_after_new reader ep s (self : ObjRef) s' :
  new grpc reader ep s = (Ret self, s') ->
  exists srv,
    fst (server grpc 10 (world s)) = Ret srv
    /\ forall s2, heap s2 = heap s' ->
         start grpc self s2
         = (fst (server_start grpc srv (world s2)),
            moved s2 (snd (server_start grpc srv (world s2))) [call_start srv])
         /\ exists rest,
              trace (snd (stop grpc self s2)) = trace s2 ++ call_stop srv 0 :: rest.
Proof.
  intros H.
  destruct (new_returned reader ep s H)
    as (_ & _ & _ & srv & a & Hsrv & Hhas & _).
  exists srv. split; [exact Hsrv|]. intros s2 Hheap.
  assert (Hhas2 : has_server s2 self srv).
  { destruct Hhas as (o & Ho & Hs). exists o. rewrite Hheap. auto. }
  split.
  - rewrite (start_run Hhas2).
    destruct (server_start grpc srv (world s2)); reflexivity.
  - rewrite (stop_run grpc Hhas2).
    destruct (server_stop grpc srv 0 (world s2)) as [[[]|x|] w1];
      try (eexists; reflexivity).
    destruct (has_wait_for_termination grpc); [|eexists; reflexivity].
    destruct (wait_for_termination grpc srv None w1); eexists; reflexivity.
Qed.


End LifecycleFurther.

(** The endpoint of a server bound to an ephemeral port names the port: two
    such endpoints are the same string only if the ports are the same. *)
Theorem endpoint_determines_port (p q : Z) :
  ("localhost:" ++ str_int p)%string = ("localhost:" ++ str_int q)%string ->
  p = q.
Proof.
  cbn. intros H. injection H as H. apply str_int_injective. exact H.
Qed.

(** ** The further properties on the concrete world *)


(** Two pulls on a stream of three events: two events delivered, two
    elements asked of the reader, the third still with the reader. *)
Example Events_two_pulls :
  let run := consume 2 (Events 0 {| output_ids := ["None"%string] |}) Sim.s1 in
  delivered run = [1; 2] /\ ending run = Pending
  /\ next_calls (trace (final run)) = 2
  /\ Sim.iters (world (final run)) = [[Sim.ev 3]].
Proof. repeat split; reflexivity. Qed.

Lemma new_sets_all_attributes_witness :
  0 = length (heap Sim.s0)
  /\ length (heap Sim.s1) = S (length (heap Sim.s0))
  /\ has_reader Sim.s1 0 Sim.reader
  /\ exists srv address,
       fst (server (Sim.grpc true true) 10 (world Sim.s0)) = Ret srv
       /\ has_server Sim.s1 0 srv
       /\ getattr 0 "endpoint" endpoint Sim.s1 = (Ret address, Sim.s1).
Proof.
  exact (@new_sets_all_attributes _ _ _ _ (Sim.grpc true true) Sim.reader
           None Sim.s0 0 Sim.s1 eq_refl).
Defined.

Lemma new_keeps_other_instances_witness :
  let s' := snd (new (Sim.grpc true true) Sim.reader
                   (Some "localhost:9090"%string) Sim.s1) in
  (exists o, heap s' = heap Sim.s1 ++ [o])
  /\ (forall other r, has_reader Sim.s1 other r -> has_reader s' other r)
  /\ (forall other srv, has_server Sim.s1 other srv -> has_server s' other srv).
Proof.
  exact (@new_keeps_other_instances _ _ _ _ (Sim.grpc true true) Sim.reader
           (Some "localhost:9090"%string) Sim.s1).
Defined.

Lemma new_raises_only_transport_errors_witness :
  let grpc := Sim.grpc true true in
  let ep := Some "localhost:8080"%string in
  let x := mkExn "RuntimeError" "Failed to bind to address" in
  fst (server grpc 10 (world Sim.s0)) = Raise x
  \/ exists srv w1,
       server grpc 10 (world Sim.s0) = (Ret srv, w1)
       /\ (fst (add_insecure_port grpc srv (bind_address ep) w1) = Raise x
           \/ exists port w2,
                add_insecure_port grpc srv (bind_address ep) w1 = (Ret port, w2)
                /\ fst (add_TestStreamServiceServicer_to_server grpc
                          (length (heap Sim.s0)) srv w2) = Raise x).
Proof.
  exact (@new_raises_only_transport_errors _ _ _ _ (Sim.grpc true true)
           Sim.reader (Some "localhost:8080"%string) Sim.s0
           (mkExn "RuntimeError" "Failed to bind to address") eq_refl).
Defined.

Lemma new_call_sequence_witness :
  exists srv,
    trace Sim.s1
    = trace Sim.s0 ++ [call_server 10;
                       call_add_insecure_port srv (bind_address None);
                       call_add_servicer 0 srv].
Proof.
  exact (@new_call_sequence _ _ _ _ (Sim.grpc true true) Sim.reader
           None Sim.s0 0 Sim.s1 eq_refl).
Defined.

Lemma start_and_stop_after_new_witness :
  let grpc := Sim.grpc true true in
  exists srv,
    fst (server grpc 10 (world Sim.s0)) = Ret srv
    /\ forall s2, heap s2 = heap Sim.s1 ->
         start grpc 0 s2
         = (fst (server_start grpc srv (world s2)),
            moved s2 (snd (server_start grpc srv (world s2))) [call_start srv])
         /\ exists rest,
              trace (snd (stop grpc 0 s2)) = trace s2 ++ call_stop srv 0 :: rest.
Proof.
  exact (@start_and_stop_after_new _ _ _ _ (Sim.grpc true true) Sim.reader
           None Sim.s0 0 Sim.s1 eq_refl).
Defined.


Lemma endpoint_determines_port_witness : 50051%Z = 50051%Z.
Proof. exact (@endpoint_determines_port 50051 50051 eq_refl). Defined.
